(** * judge-api: the submissions routes and the language-registry setup

    A shallow embedding of [src/routes/api/submissions.ts] (the handlers of
    [GET /submissions] and [POST /submissions]) and of the setup script that
    seeds the [Langs] table, followed by the properties of the submission
    lifecycle that hold of them.

    The handlers are promise chains over three ambient capabilities: the
    Sequelize models ([Submissions], [Langs], [db]), the queue client
    ([queueJob]) and the Express response ([res.status(..).json(..)]).  They
    are embedded in a state-and-rejection monad over a [World] that holds the
    tables, the queue and the responses written so far. *)

From Stdlib Require Import ZArith.
From stdpp Require Import gmap strings list fin_maps.

Open Scope string_scope.
Open Scope list_scope.
Open Scope Z_scope.

(** ** Values *)

(** One element of [testcases]: [{input: string, output: string}]. *)
Record Testcase := { input : string; output : string }.

(** The JavaScript values the routes handle.  [JError] stands for whatever a
    rejected promise or a [throw] carries. *)
Inductive jsval :=
| JUndefined
| JNum (n : Z)
| JStr (s : string)
| JBool (b : bool)
| JDate (t : Z)
| JCases (cs : list Testcase)
| JError (msg : string).

(** Object literals and table rows are finite maps from property names. *)
Abbreviation obj := (gmap string jsval).

(** Property access [o.k]: a missing property reads as [undefined]. *)
Definition prop (o : obj) (k : string) : jsval := default JUndefined (o !! k).

(** [SubmissionRequestBody]. *)
Record SubmissionRequestBody := {
  source : string;
  lang : string;
  testcases : list Testcase;
  getstdout : bool;
  callbackurl : string
}.

(** What [res.json] is given: an array of rows or an object literal. *)
Inductive Body :=
| BArray (rows : list obj)
| BObject (o : obj).

(** A response as written by [res.status(s).json(b)]. *)
Definition Response : Type := Z * Body.

Definition is_2xx (status : Z) : bool := (200 <=? status) && (status <? 300).
Definition is_4xx (status : Z) : bool := (400 <=? status) && (status <? 500).

(** ** The world the routes act on *)

(** A call made on the database models, with its argument. *)
Inductive DbCall :=
| DbCreate (attrs : obj)
| DbFindAll
| DbSync
| DbLangsSync (force : bool)
| DbBulkCreate (rows : list obj)
| DbClose.

(** What a call of [queueJob] does: it returns a boolean or it throws. *)
Inductive QueueOutcome :=
| Returns (b : bool)
| Throws (e : jsval).

(** [db_fault] and [broker] are the environment: [db_fault n] says whether the
    [n]-th call on the models fails (and with what), [broker n] what the
    [n]-th call of [queueJob] does.  [db_log] and [offered] record every call
    made, [published] the jobs the broker took, [sent] the responses. *)
Record World := {
  submissions : list obj;
  next_id : Z;
  langs : list obj;
  db_open : bool;
  clock : Z;
  db_log : list DbCall;
  db_fault : nat -> option jsval;
  offered : list obj;
  published : list obj;
  broker : nat -> QueueOutcome;
  sent : list Response
}.

Definition log_db (c : DbCall) (w : World) : World :=
  {| submissions := submissions w; next_id := next_id w; langs := langs w;
     db_open := db_open w; clock := clock w;
     db_log := db_log w ++ [c]; db_fault := db_fault w;
     offered := offered w; published := published w; broker := broker w;
     sent := sent w |}.

Definition insert_submission (row : obj) (w : World) : World :=
  {| submissions := submissions w ++ [row]; next_id := next_id w + 1;
     langs := langs w; db_open := db_open w; clock := clock w;
     db_log := db_log w; db_fault := db_fault w;
     offered := offered w; published := published w; broker := broker w;
     sent := sent w |}.

Definition set_langs (rows : list obj) (w : World) : World :=
  {| submissions := submissions w; next_id := next_id w; langs := rows;
     db_open := db_open w; clock := clock w;
     db_log := db_log w; db_fault := db_fault w;
     offered := offered w; published := published w; broker := broker w;
     sent := sent w |}.

Definition set_db_open (b : bool) (w : World) : World :=
  {| submissions := submissions w; next_id := next_id w; langs := langs w;
     db_open := b; clock := clock w;
     db_log := db_log w; db_fault := db_fault w;
     offered := offered w; published := published w; broker := broker w;
     sent := sent w |}.

Definition offer (job : obj) (taken : bool) (w : World) : World :=
  {| submissions := submissions w; next_id := next_id w; langs := langs w;
     db_open := db_open w; clock := clock w;
     db_log := db_log w; db_fault := db_fault w;
     offered := offered w ++ [job];
     published := if taken then published w ++ [job] else published w;
     broker := broker w;
     sent := sent w |}.

Definition send (r : Response) (w : World) : World :=
  {| submissions := submissions w; next_id := next_id w; langs := langs w;
     db_open := db_open w; clock := clock w;
     db_log := db_log w; db_fault := db_fault w;
     offered := offered w; published := published w; broker := broker w;
     sent := sent w ++ [r] |}.

(** ** Promises *)

(** A settled promise: fulfilled with a value or rejected with a reason.  A
    [throw] inside a callback rejects the promise the callback feeds. *)
Inductive Settled (A : Type) :=
| Fulfilled (a : A)
| Rejected (reason : jsval).
Arguments Fulfilled {A} a.
Arguments Rejected {A} reason.

Definition Promise (A : Type) : Type := World -> Settled A * World.

Definition resolve {A} (a : A) : Promise A := fun w => (Fulfilled a, w).

(** [p.then(f)]: [f] runs only when [p] is fulfilled. *)
Definition then_ {A B} (p : Promise A) (f : A -> Promise B) : Promise B :=
  fun w =>
    match p w with
    | (Fulfilled a, w1) => f a w1
    | (Rejected e, w1) => (Rejected e, w1)
    end.

(** [p.catch(g)]: [g] runs only when [p] is rejected. *)
Definition catch_ {A} (p : Promise A) (g : jsval -> Promise A) : Promise A :=
  fun w =>
    match p w with
    | (Fulfilled a, w1) => (Fulfilled a, w1)
    | (Rejected e, w1) => g e w1
    end.

(** [p.finally(f)]: [f] runs either way and [p]'s outcome passes through,
    unless [f] itself is rejected. *)
Definition finally_ {A} (p : Promise A) (f : Promise unit) : Promise A :=
  fun w =>
    match p w with
    | (r, w1) =>
        match f w1 with
        | (Fulfilled _, w2) => (r, w2)
        | (Rejected e, w2) => (Rejected e, w2)
        end
    end.

(** [try { p } catch (e) { }]. *)
Definition try_ (p : Promise unit) : Promise unit :=
  catch_ p (fun _ => resolve tt).

(** The world a computation leaves, and its outcome. *)
Definition after {A} (p : Promise A) (w : World) : World := (p w).2.
Definition outcome {A} (p : Promise A) (w : World) : Settled A := (p w).1.

(** ** The capabilities the routes call *)

(** [new Date()]. *)
Definition new_Date : Promise jsval := fun w => (Fulfilled (JDate (clock w)), w).

(** One call on the models: logged, then failed if the environment says so. *)
Definition db_call {A} (c : DbCall) (ok : World -> A * World) : Promise A :=
  fun w =>
    match db_fault w (length (db_log w)) with
    | Some e => (Rejected e, log_db c w)
    | None => let '(a, w1) := ok (log_db c w) in (Fulfilled a, w1)
    end.

(** Modelled from the spec: the Sequelize model [Submissions] of [db/models]
    is not under src.  [create(record)] assigns the record a fresh [id], keeps
    it and yields it; a failed create keeps nothing. *)
Definition Submissions_create (attrs : obj) : Promise obj :=
  db_call (DbCreate attrs)
    (fun w => let row := <["id" := JNum (next_id w)]> attrs in
              (row, insert_submission row w)).

(** Modelled from the spec: [Submissions.findAll()] of [db/models], the
    store's [list()]: it yields the records the store holds, in insertion
    order, and changes nothing. *)
Definition Submissions_findAll : Promise (list obj) :=
  db_call DbFindAll (fun w => (submissions w, w)).

(** Modelled from the spec: [queueJob] of [rabbitmq/jobqueue] is not under
    src.  [publish(job) -> bool]: [true] when the broker took the job,
    [false] or a thrown failure when it could not. *)
Definition queueJob (job : obj) : Promise bool :=
  fun w =>
    match broker w (length (offered w)) with
    | Returns b => (Fulfilled b, offer job b w)
    | Throws e => (Rejected e, offer job false w)
    end.

(** [res.status(status).json(body)]. *)
Definition res_status_json (status : Z) (body : Body) : Promise unit :=
  fun w => (Fulfilled tt, send (status, body) w).

(** Modelled from the spec: [db.sync()], [Langs.sync({force})],
    [Langs.bulkCreate(rows)] and [db.close()] of [db/models].  A forced sync
    drops the table and creates it empty; [bulkCreate] adds the rows given. *)
Definition db_sync : Promise unit :=
  db_call DbSync (fun w => (tt, w)).

Definition Langs_sync (force : bool) : Promise unit :=
  db_call (DbLangsSync force)
    (fun w => (tt, if force then set_langs [] w else w)).

Definition Langs_bulkCreate (rows : list obj) : Promise (list obj) :=
  db_call (DbBulkCreate rows) (fun w => (rows, set_langs (langs w ++ rows) w)).

Definition db_close : Promise unit :=
  db_call DbClose (fun w => (tt, set_db_open false w)).

(** ** The routes *)

(** [route.get('/')]. *)
Definition route_get : Promise unit :=
  catch_
    (then_ Submissions_findAll (fun submissions =>
       res_status_json 200 (BArray submissions)))
    (fun err =>
       res_status_json 501 (BObject
         {[ "code" := JNum 501;
            "message" := JStr "Could not fetch submissions";
            "error" := err ]})).

(** [route.post('/')], [body] being [req.body].  The argument of
    [Submissions.create] is evaluated first, [new Date()] with it; [queueJob]
    and the 202 response are the body of the [then] callback, so a throw of
    [queueJob] rejects the chain and reaches the [catch].  The casts
    [<SubmissionAttributes>], [<SubmissionJob>] and [<SubmissionResponse>]
    are type assertions: the objects are the literals as written. *)
Definition route_post (body : SubmissionRequestBody) : Promise unit :=
  then_ new_Date (fun start_time =>
    catch_
      (then_
         (Submissions_create
            {[ "lang" := JStr (lang body);
               "start_time" := start_time ]})
         (fun submission =>
            then_
              (queueJob
                 {[ "id" := prop submission "id";
                    "source" := JStr (source body);
                    "testcases" := JCases (testcases body);
                    "getstdout" := JBool (getstdout body) ]})
              (fun queued =>
                 res_status_json 202 (BObject
                   {[ "id" := prop submission "id";
                      "accepted" := JBool queued;
                      "callbackurl" := JStr (callbackurl body) ]}))))
      (fun err =>
         res_status_json 501 (BObject
           {[ "code" := JNum 501;
              "message" := JStr "Could not accept submission";
              "error" := err ]}))).

(** The setup script: [db.sync().then(..).then(..).finally(..)]. *)
Definition setup : Promise (list obj) :=
  finally_
    (then_ db_sync (fun _ =>
     then_ (Langs_sync true) (fun _ =>
       Langs_bulkCreate
         [ {[ "lang_slug" := JStr "py2"; "lang_name" := JStr "Python";
              "lang_version" := JStr "2.7" ]};
           {[ "lang_slug" := JStr "java8"; "lang_name" := JStr "Java";
              "lang_version" := JStr "1.8" ]};
           {[ "lang_slug" := JStr "nodejs6"; "lang_name" := JStr "NodeJS";
              "lang_version" := JStr "6" ]};
           {[ "lang_slug" := JStr "cpp"; "lang_name" := JStr "C++";
              "lang_version" := JStr "11" ]};
           {[ "lang_slug" := JStr "c"; "lang_name" := JStr "C";
              "lang_version" := JStr "6" ]} ])))
    (try_ db_close).

(** The slugs of the languages the registry knows. *)
Definition slug_of (row : obj) : option string :=
  match row !! "lang_slug" with
  | Some (JStr s) => Some s
  | _ => None
  end.

Definition known_slugs (w : World) : gset string :=
  list_to_set (omap slug_of (langs w)).

(** ** Serving requests one after another *)

Inductive Request :=
| GET
| POST (body : SubmissionRequestBody).

Definition serve (r : Request) : Promise unit :=
  match r with
  | GET => route_get
  | POST body => route_post body
  end.

Fixpoint serve_all (rs : list Request) (w : World) : World :=
  match rs with
  | [] => w
  | r :: rs' => serve_all rs' (after (serve r) w)
  end.

(** ** A concrete world and requests *)

(** An empty store and queue, a working database and broker. *)
Definition fresh : World :=
  {| submissions := []; next_id := 1; langs := []; db_open := true;
     clock := 1500000000000;
     db_log := []; db_fault := fun _ => None;
     offered := []; published := []; broker := fun _ => Returns true;
     sent := [] |}.

Definition with_db_fault (f : nat -> option jsval) (w : World) : World :=
  {| submissions := submissions w; next_id := next_id w; langs := langs w;
     db_open := db_open w; clock := clock w;
     db_log := db_log w; db_fault := f;
     offered := offered w; published := published w; broker := broker w;
     sent := sent w |}.

Definition with_broker (b : nat -> QueueOutcome) (w : World) : World :=
  {| submissions := submissions w; next_id := next_id w; langs := langs w;
     db_open := db_open w; clock := clock w;
     db_log := db_log w; db_fault := db_fault w;
     offered := offered w; published := published w; broker := b;
     sent := sent w |}.

(** The submission of the spec's scenario. *)
Definition scenario : SubmissionRequestBody :=
  {| source := "s1"; lang := "cpp";
     testcases := [ {| input := "i1"; output := "o1" |};
                    {| input := "i2"; output := "o2" |} ];
     getstdout := true; callbackurl := "http://cb/x" |}.

(** The queue is offline: the broker refuses every publish. *)
Definition queue_offline : World := with_broker (fun _ => Returns false) fresh.

(** The broker client throws on every publish. *)
Definition queue_broken : World :=
  with_broker (fun _ => Throws (JError "Channel closed")) fresh.

(** The store rejects every call. *)
Definition store_offline : World :=
  with_db_fault (fun _ => Some (JError "ECONNREFUSED")) fresh.

(** A registry left over from an earlier setup. *)
Definition stale_registry : World :=
  set_langs [ {[ "lang_slug" := JStr "rb"; "lang_name" := JStr "Ruby";
                 "lang_version" := JStr "2.4" ]} ] fresh.

(** A request whose [source] and [callbackurl] are no URLs. *)
Definition malformed : SubmissionRequestBody :=
  {| source := "not a url"; lang := "cpp";
     testcases := [ {| input := "i1"; output := "o1" |} ];
     getstdout := false; callbackurl := "nowhere" |}.

(** The [id]s of a list of rows, jobs or response objects, in order. *)
Definition ids_of (os : list obj) : list jsval :=
  (fun o => prop o "id") <$> os.



(** A left-over registry and a database that fails the third call made on
    it. *)
Definition seeding_fails : World :=
  with_db_fault
    (fun n => if (n =? 2)%nat then Some (JError "SQLITE_BUSY") else None)
    stale_registry.

(** ** Requests in flight *)

(** A handler returns as soon as it has made its call on the store; the
    callbacks of its chain run later, when the promise of that call has
    settled, and other requests may arrive in between. *)

(** A promise that has settled with [r]. *)
Definition settled {A} (r : Settled A) : Promise A := fun w => (r, w).

(** What [route.get] does once the promise of [findAll] has settled with
    [r]: the [then] and the [catch] of its chain. *)
Definition get_settle (r : Settled (list obj)) : Promise unit :=
  catch_
    (then_ (settled r) (fun submissions =>
       res_status_json 200 (BArray submissions)))
    (fun err =>
       res_status_json 501 (BObject
         {[ "code" := JNum 501;
            "message" := JStr "Could not fetch submissions";
            "error" := err ]})).

(** What [route.post] does before it returns: it evaluates the argument of
    [Submissions.create] and makes the call. *)
Definition post_create (body : SubmissionRequestBody) : Promise obj :=
  then_ new_Date (fun start_time =>
    Submissions_create
      {[ "lang" := JStr (lang body);
         "start_time" := start_time ]}).

(** What [route.post] does once the promise of [create] has settled with
    [r]: the [then] and the [catch] of its chain. *)
Definition post_settle (body : SubmissionRequestBody) (r : Settled obj)
  : Promise unit :=
  catch_
    (then_ (settled r)
       (fun submission =>
          then_
            (queueJob
               {[ "id" := prop submission "id";
                  "source" := JStr (source body);
                  "testcases" := JCases (testcases body);
                  "getstdout" := JBool (getstdout body) ]})
            (fun queued =>
               res_status_json 202 (BObject
                 {[ "id" := prop submission "id";
                    "accepted" := JBool queued;
                    "callbackurl" := JStr (callbackurl body) ]}))))
    (fun err =>
       res_status_json 501 (BObject
         {[ "code" := JNum 501;
            "message" := JStr "Could not accept submission";
            "error" := err ]})).

(** A request whose store call has been made and whose callbacks have not
    run yet, with what the call's promise settles with. *)
Inductive Pending :=
| PendingGet (r : Settled (list obj))
| PendingPost (body : SubmissionRequestBody) (r : Settled obj).

Definition settle (p : Pending) : Promise unit :=
  match p with
  | PendingGet r => get_settle r
  | PendingPost body r => post_settle body r
  end.

(** The server: the world and the requests in flight, oldest first. *)
Record Server := { world : World; pending : list Pending }.

Definition idle (w : World) : Server := {| world := w; pending := [] |}.

(** Either a request arrives and its handler runs up to its store call, or
    the promise of the [k]-th request in flight settles and its callbacks
    run.  A request whose promise never settles stays in flight. *)
Inductive Event :=
| Arrives (r : Request)
| Settles (k : nat).

Definition step (ev : Event) (s : Server) : Server :=
  match ev with
  | Arrives GET =>
      {| world := after Submissions_findAll (world s);
         pending := pending s
                    ++ [PendingGet (outcome Submissions_findAll (world s))] |}
  | Arrives (POST body) =>
      {| world := after (post_create body) (world s);
         pending := pending s
                    ++ [PendingPost body (outcome (post_create body) (world s))] |}
  | Settles k =>
      match pending s !! k with
      | Some p => {| world := after (settle p) (world s);
                     pending := delete k (pending s) |}
      | None => s
      end
  end.

Fixpoint run (evs : list Event) (s : Server) : Server :=
  match evs with
  | [] => s
  | ev :: evs' => run evs' (step ev s)
  end.

(** The requests that arrive in a run. *)
Fixpoint arrivals (evs : list Event) : nat :=
  match evs with
  | [] => 0%nat
  | Arrives _ :: evs' => S (arrivals evs')
  | Settles _ :: evs' => arrivals evs'
  end.

(** The [id]s of the rows whose request is still in flight: the create was
    fulfilled and the callback that queues the job has not run. *)
Definition waiting_id (p : Pending) : option jsval :=
  match p with
  | PendingPost _ (Fulfilled submission) => Some (prop submission "id")
  | _ => None
  end.

Definition waiting (ps : list Pending) : list jsval := omap waiting_id ps.

(** Each request served to its end before the next arrives. *)
Definition one_by_one (rs : list Request) : list Event :=
  rs ≫= (fun r => [Arrives r; Settles 0]).

(** Two POSTs arrive and the second one's promise settles first. *)
Definition crossing : list Event :=
  [Arrives (POST scenario); Arrives (POST malformed); Settles 1; Settles 0].

(** * Properties *)

(** ** Promises and capabilities, one step at a time *)

Lemma prop_insert_eq (o : obj) (k : string) (v : jsval) :
  prop (<[k := v]> o) k = v.
Proof. unfold prop. by rewrite lookup_insert_eq. Qed.

Lemma db_call_ok {A} (c : DbCall) (ok : World -> A * World) (w : World) :
  db_fault w (length (db_log w)) = None ->
  db_call c ok w = (Fulfilled (ok (log_db c w)).1, (ok (log_db c w)).2).
Proof. intros H. unfold db_call. rewrite H. by destruct (ok (log_db c w)). Qed.

Lemma db_call_fault {A} (c : DbCall) (ok : World -> A * World) (w : World) e :
  db_fault w (length (db_log w)) = Some e ->
  db_call c ok w = (Rejected e, log_db c w).
Proof. intros H. unfold db_call. by rewrite H. Qed.

Lemma then_fulfilled {A B} (p : Promise A) (f : A -> Promise B) w a w1 :
  p w = (Fulfilled a, w1) -> then_ p f w = f a w1.
Proof. intros H. unfold then_. by rewrite H. Qed.

Lemma then_rejected {A B} (p : Promise A) (f : A -> Promise B) w e w1 :
  p w = (Rejected e, w1) -> then_ p f w = (Rejected e, w1).
Proof. intros H. unfold then_. by rewrite H. Qed.

Lemma catch_fulfilled {A} (p : Promise A) g w a w1 :
  p w = (Fulfilled a, w1) -> catch_ p g w = (Fulfilled a, w1).
Proof. intros H. unfold catch_. by rewrite H. Qed.

Lemma catch_rejected {A} (p : Promise A) g w e w1 :
  p w = (Rejected e, w1) -> catch_ p g w = g e w1.
Proof. intros H. unfold catch_. by rewrite H. Qed.

Lemma queueJob_returns job w b :
  broker w (length (offered w)) = Returns b ->
  queueJob job w = (Fulfilled b, offer job b w).
Proof. intros H. unfold queueJob. by rewrite H. Qed.

Lemma queueJob_throws job w e :
  broker w (length (offered w)) = Throws e ->
  queueJob job w = (Rejected e, offer job false w).
Proof. intros H. unfold queueJob. by rewrite H. Qed.

(** ** What [route.get] and [route.post] do, path by path *)

Section Paths.
Variable w : World.
Variable body : SubmissionRequestBody.

Local Abbreviation attrs :=
  ({[ "lang" := JStr (lang body); "start_time" := JDate (clock w) ]} : obj).
Local Abbreviation row := (<["id" := JNum (next_id w)]> attrs).
Local Abbreviation job :=
  ({[ "id" := JNum (next_id w);
      "source" := JStr (source body);
      "testcases" := JCases (testcases body);
      "getstdout" := JBool (getstdout body) ]} : obj).
Local Abbreviation failure msg e :=
  (501, BObject {[ "code" := JNum 501; "message" := JStr msg; "error" := e ]}).

Lemma route_get_listed :
  db_fault w (length (db_log w)) = None ->
  route_get w
  = (Fulfilled tt, send (200, BArray (submissions w)) (log_db DbFindAll w)).
Proof.
  intros Hdb. unfold route_get.
  apply catch_fulfilled.
  erewrite then_fulfilled; [reflexivity|].
  unfold Submissions_findAll. by rewrite db_call_ok.
Qed.

Lemma route_get_failed e :
  db_fault w (length (db_log w)) = Some e ->
  route_get w
  = (Fulfilled tt,
     send (failure "Could not fetch submissions" e) (log_db DbFindAll w)).
Proof.
  intros Hdb. unfold route_get.
  erewrite catch_rejected; [reflexivity|].
  apply then_rejected. unfold Submissions_findAll. by apply db_call_fault.
Qed.

Lemma route_post_rejected e :
  db_fault w (length (db_log w)) = Some e ->
  route_post body w
  = (Fulfilled tt,
     send (failure "Could not accept submission" e)
       (log_db (DbCreate attrs) w)).
Proof.
  intros Hdb. unfold route_post.
  erewrite then_fulfilled; [|reflexivity].
  erewrite catch_rejected; [reflexivity|].
  apply then_rejected. unfold Submissions_create. by apply db_call_fault.
Qed.

Lemma route_post_queued b :
  db_fault w (length (db_log w)) = None ->
  broker w (length (offered w)) = Returns b ->
  route_post body w
  = (Fulfilled tt,
     send (202, BObject {[ "id" := JNum (next_id w);
                           "accepted" := JBool b;
                           "callbackurl" := JStr (callbackurl body) ]})
       (offer job b (insert_submission row (log_db (DbCreate attrs) w)))).
Proof.
  intros Hdb Hq. unfold route_post.
  erewrite then_fulfilled; [|reflexivity].
  apply catch_fulfilled.
  erewrite then_fulfilled;
    [|unfold Submissions_create; by rewrite db_call_ok].
  cbn [fst snd]. rewrite prop_insert_eq.
  erewrite then_fulfilled; [reflexivity|].
  by apply queueJob_returns.
Qed.

Lemma route_post_thrown e :
  db_fault w (length (db_log w)) = None ->
  broker w (length (offered w)) = Throws e ->
  route_post body w
  = (Fulfilled tt,
     send (failure "Could not accept submission" e)
       (offer job false (insert_submission row (log_db (DbCreate attrs) w)))).
Proof.
  intros Hdb Hq. unfold route_post.
  erewrite then_fulfilled; [|reflexivity].
  erewrite catch_rejected; [reflexivity|].
  erewrite then_fulfilled;
    [|unfold Submissions_create; by rewrite db_call_ok].
  cbn [fst snd]. rewrite prop_insert_eq.
  apply then_rejected. by apply queueJob_throws.
Qed.

End Paths.

(** The three paths of [route.post]: the create is rejected; the create
    succeeds and [queueJob] returns; the create succeeds and [queueJob]
    throws. *)
Ltac post_paths w body :=
  let e := fresh "e" in
  let b := fresh "b" in
  let Hdb := fresh "Hdb" in
  let Hq := fresh "Hq" in
  unfold after;
  destruct (db_fault w (length (db_log w))) as [e|] eqn:Hdb;
  [ rewrite (route_post_rejected w body e Hdb)
  | destruct (broker w (length (offered w))) as [b|e] eqn:Hq;
    [ rewrite (route_post_queued w body b Hdb Hq)
    | rewrite (route_post_thrown w body e Hdb Hq) ] ].

(** Every path of [route.post] makes the same single call on the store. *)
Lemma route_post_db_log (w : World) (body : SubmissionRequestBody) :
  db_log (after (route_post body) w)
  = db_log w ++ [DbCreate {[ "lang" := JStr (lang body);
                             "start_time" := JDate (clock w) ]}].
Proof. post_paths w body; reflexivity. Qed.

(** The rows after [route.post]: one more exactly when the create succeeds. *)
Lemma route_post_submissions (w : World) (body : SubmissionRequestBody) :
  submissions (after (route_post body) w)
  = match db_fault w (length (db_log w)) with
    | Some _ => submissions w
    | None => submissions w ++ [ {[ "id" := JNum (next_id w);
                                    "lang" := JStr (lang body);
                                    "start_time" := JDate (clock w) ]} ]
    end.
Proof. post_paths w body; reflexivity. Qed.

(** [route.post] answers once, with 202 or 501 and nothing else, and leaves
    its chain fulfilled. *)
Lemma route_post_status (w : World) (body : SubmissionRequestBody) :
  exists status o,
    sent (after (route_post body) w) = sent w ++ [(status, BObject o)]
    /\ (status = 202 \/ status = 501).
Proof. post_paths w body; cbn; eauto. Qed.

Lemma route_post_fulfilled (w : World) (body : SubmissionRequestBody) :
  outcome (route_post body) w = Fulfilled tt.
Proof. unfold outcome. post_paths w body; reflexivity. Qed.

(** ** Rows are only ever added *)

Lemma serve_keeps_submissions (r : Request) (w : World) :
  submissions w `prefix_of` submissions (after (serve r) w).
Proof.
  destruct r as [|body]; simpl.
  - unfold after. destruct (db_fault w (length (db_log w))) as [e|] eqn:Hdb.
    + by rewrite (route_get_failed w e).
    + by rewrite route_get_listed.
  - rewrite route_post_submissions.
    destruct (db_fault w (length (db_log w))); [done | by apply prefix_app_r].
Qed.

Lemma serve_all_keeps_submissions (rs : list Request) (w : World) :
  submissions w `prefix_of` submissions (serve_all rs w).
Proof.
  revert w. induction rs as [|r rs IH]; intros w; simpl.
  - done.
  - etrans; [apply serve_keeps_submissions | apply IH].
Qed.

(** A row the store holds is in the array a later, successful
    [GET /submissions] answers with, whatever was served in between. *)
Lemma stored_row_is_listed (rs : list Request) (w : World) (r : obj) :
  r ∈ submissions w ->
  db_fault (serve_all rs w) (length (db_log (serve_all rs w))) = None ->
  exists rows,
    sent (after route_get (serve_all rs w))
    = sent (serve_all rs w) ++ [(200, BArray rows)]
    /\ r ∈ rows.
Proof.
  intros Hin Hdb. exists (submissions (serve_all rs w)). split.
  - unfold after. by rewrite route_get_listed.
  - destruct (serve_all_keeps_submissions rs w) as [k ->].
    apply elem_of_app. by left.
Qed.

(** ** POST /submissions *)

(** C1: when the store's create succeeds, [POST /submissions] adds exactly
    one row to the store and hands exactly one job to [queueJob], of which the
    broker publishes at most that one; the job's [id] is the id the store gave
    the row, and its [source], [testcases] and [getstdout] are the request's. *)
Theorem post_creates_one_submission_and_one_job
  (w : World) (body : SubmissionRequestBody) :
  db_fault w (length (db_log w)) = None ->
  exists (n : Z) (row job : obj),
    submissions (after (route_post body) w) = submissions w ++ [row]
    /\ row !! "id" = Some (JNum n)
    /\ offered (after (route_post body) w) = offered w ++ [job]
    /\ (published (after (route_post body) w) = published w
        \/ published (after (route_post body) w) = published w ++ [job])
    /\ job = {[ "id" := JNum n;
                "source" := JStr (source body);
                "testcases" := JCases (testcases body);
                "getstdout" := JBool (getstdout body) ]}.
Proof.
  intros Hdb. eexists _, _, _. unfold after.
  destruct (broker w (length (offered w))) as [b|e] eqn:Hq.
  - rewrite (route_post_queued w body b Hdb Hq). cbn.
    split_and!; [reflexivity | apply lookup_insert_eq | reflexivity | | reflexivity].
    destruct b; [by right | by left].
  - rewrite (route_post_thrown w body e Hdb Hq). cbn.
    split_and!; [reflexivity | apply lookup_insert_eq | reflexivity | by left | reflexivity].
Qed.

Lemma post_creates_one_submission_and_one_job_witness :
  db_fault fresh (length (db_log fresh)) = None
  /\ exists (n : Z) (row job : obj),
    submissions (after (route_post scenario) fresh) = submissions fresh ++ [row]
    /\ row !! "id" = Some (JNum n)
    /\ offered (after (route_post scenario) fresh) = offered fresh ++ [job]
    /\ (published (after (route_post scenario) fresh) = published fresh
        \/ published (after (route_post scenario) fresh)
           = published fresh ++ [job])
    /\ job = {[ "id" := JNum n;
                "source" := JStr (source scenario);
                "testcases" := JCases (testcases scenario);
                "getstdout" := JBool (getstdout scenario) ]}.
Proof.
  split; [reflexivity|].
  apply (post_creates_one_submission_and_one_job fresh scenario).
  reflexivity.
Defined.

(** C2: when the store's create fails, [POST /submissions] stores nothing,
    never calls [queueJob], publishes nothing, and answers 501 (not a 2xx)
    with the error object [{code, message, error}]. *)
Theorem post_store_failure_publishes_nothing
  (w : World) (body : SubmissionRequestBody) (e : jsval) :
  db_fault w (length (db_log w)) = Some e ->
  submissions (after (route_post body) w) = submissions w
  /\ offered (after (route_post body) w) = offered w
  /\ published (after (route_post body) w) = published w
  /\ sent (after (route_post body) w)
     = sent w ++ [(501, BObject {[ "code" := JNum 501;
                                   "message" := JStr "Could not accept submission";
                                   "error" := e ]})]
  /\ is_2xx 501 = false.
Proof.
  intros Hdb. unfold after. rewrite (route_post_rejected w body e Hdb).
  by split_and!.
Qed.

Lemma post_store_failure_publishes_nothing_witness :
  db_fault store_offline (length (db_log store_offline))
  = Some (JError "ECONNREFUSED")
  /\ submissions (after (route_post scenario) store_offline) = []
  /\ offered (after (route_post scenario) store_offline) = []
  /\ sent (after (route_post scenario) store_offline)
     = [(501, BObject {[ "code" := JNum 501;
                         "message" := JStr "Could not accept submission";
                         "error" := JError "ECONNREFUSED" ]})].
Proof.
  split; [reflexivity|].
  destruct (post_store_failure_publishes_nothing store_offline scenario
              (JError "ECONNREFUSED") eq_refl) as (Hs & Ho & _ & Hr & _).
  split_and!; [exact Hs | exact Ho | exact Hr].
Defined.

(** C3, amended: when the create succeeds and [queueJob] returns the boolean [b], the
    response is 202 with [{id, accepted: b, callbackurl}], [id] being the
    store's and [callbackurl] the request's, whichever [b] is; and when [b] is
    [false] the row is in the store and in the array of any later
    [GET /submissions] whose [findAll] succeeds. *)
Theorem post_answers_202_with_publish_result
  (w : World) (body : SubmissionRequestBody) (b : bool) :
  db_fault w (length (db_log w)) = None ->
  broker w (length (offered w)) = Returns b ->
  sent (after (route_post body) w)
  = sent w ++ [(202, BObject {[ "id" := JNum (next_id w);
                                "accepted" := JBool b;
                                "callbackurl" := JStr (callbackurl body) ]})]
  /\ is_2xx 202 = true
  /\ (b = false ->
      {[ "id" := JNum (next_id w); "lang" := JStr (lang body);
         "start_time" := JDate (clock w) ]}
        ∈ submissions (after (route_post body) w)
      /\ forall (rs : list Request),
          db_fault (serve_all rs (after (route_post body) w))
            (length (db_log (serve_all rs (after (route_post body) w)))) = None ->
          exists rows,
            sent (after route_get (serve_all rs (after (route_post body) w)))
            = sent (serve_all rs (after (route_post body) w))
                ++ [(200, BArray rows)]
            /\ {[ "id" := JNum (next_id w); "lang" := JStr (lang body);
                  "start_time" := JDate (clock w) ]} ∈ rows).
Proof.
  intros Hdb Hq.
  assert (Hin : {[ "id" := JNum (next_id w); "lang" := JStr (lang body);
                   "start_time" := JDate (clock w) ]}
                  ∈ submissions (after (route_post body) w)).
  { unfold after. rewrite (route_post_queued w body b Hdb Hq). cbn.
    apply elem_of_app. right. by apply list_elem_of_singleton. }
  split_and!.
  - unfold after. by rewrite (route_post_queued w body b Hdb Hq).
  - reflexivity.
  - intros _. split; [exact Hin|].
    intros rs Hlater. by apply stored_row_is_listed.
Qed.

Lemma post_answers_202_with_publish_result_witness :
  sent (after (route_post scenario) queue_offline)
  = [(202, BObject {[ "id" := JNum 1; "accepted" := JBool false;
                      "callbackurl" := JStr "http://cb/x" ]})]
  /\ exists rows,
      sent (after route_get (after (route_post scenario) queue_offline))
      = sent (after (route_post scenario) queue_offline) ++ [(200, BArray rows)]
      /\ {[ "id" := JNum 1; "lang" := JStr "cpp";
            "start_time" := JDate 1500000000000 ]} ∈ rows.
Proof.
  destruct (post_answers_202_with_publish_result queue_offline scenario false
              eq_refl eq_refl) as (Hr & _ & Hlist).
  split; [exact Hr|].
  destruct (Hlist eq_refl) as [_ Hget].
  exact (Hget [] eq_refl).
Defined.

(** C3 as first stated, for every request whose create succeeds, fails
    where [queueJob] throws instead of returning: the create succeeds, the
    row is stored, and no 202 is sent. *)
Lemma post_persisted_yet_no_202 :
  db_fault queue_broken (length (db_log queue_broken)) = None
  /\ length (submissions (after (route_post scenario) queue_broken)) = 1%nat
  /\ ~ exists o : obj,
        (202, BObject o) ∈ sent (after (route_post scenario) queue_broken).
Proof.
  split; [reflexivity|]. split; [reflexivity|].
  intros [o Hin]. unfold after in Hin.
  rewrite (route_post_thrown queue_broken scenario (JError "Channel closed")
             eq_refl eq_refl) in Hin.
  cbn in Hin. apply list_elem_of_singleton in Hin. discriminate.
Qed.

(** C9: when the create succeeds and [queueJob] throws, the chain's [catch]
    answers 501 "Could not accept submission" (not a 2xx) with the thrown
    value as [error], although the row has been stored; nothing is
    published. *)
Theorem post_queue_throw_answers_501
  (w : World) (body : SubmissionRequestBody) (e : jsval) :
  db_fault w (length (db_log w)) = None ->
  broker w (length (offered w)) = Throws e ->
  sent (after (route_post body) w)
  = sent w ++ [(501, BObject {[ "code" := JNum 501;
                                "message" := JStr "Could not accept submission";
                                "error" := e ]})]
  /\ is_2xx 501 = false
  /\ submissions (after (route_post body) w)
     = submissions w ++ [ {[ "id" := JNum (next_id w);
                             "lang" := JStr (lang body);
                             "start_time" := JDate (clock w) ]} ]
  /\ published (after (route_post body) w) = published w.
Proof.
  intros Hdb Hq. unfold after. rewrite (route_post_thrown w body e Hdb Hq).
  by split_and!.
Qed.

Lemma post_queue_throw_answers_501_witness :
  sent (after (route_post scenario) queue_broken)
  = [(501, BObject {[ "code" := JNum 501;
                      "message" := JStr "Could not accept submission";
                      "error" := JError "Channel closed" ]})]
  /\ submissions (after (route_post scenario) queue_broken)
     = [ {[ "id" := JNum 1; "lang" := JStr "cpp";
            "start_time" := JDate 1500000000000 ]} ].
Proof.
  destruct (post_queue_throw_answers_501 queue_broken scenario
              (JError "Channel closed") eq_refl eq_refl) as (Hr & _ & Hs & _).
  split; [exact Hr | exact Hs].
Defined.

(** C10: on every path [POST /submissions] makes one call on the store,
    [create] with an object whose only properties are [lang] and
    [start_time] (the request's [lang], the time of receipt); the rows of the
    store afterwards are the old ones and at most that object with its [id],
    so they are the same for any two requests with the same [lang]; and the
    [callbackurl] of a 202 response is the request's own. *)
Theorem post_stores_only_lang_and_start_time
  (w : World) (body : SubmissionRequestBody) :
  exists attrs : obj,
    db_log (after (route_post body) w) = db_log w ++ [DbCreate attrs]
    /\ dom attrs = {[ "lang"; "start_time" ]}
    /\ attrs !! "lang" = Some (JStr (lang body))
    /\ attrs !! "start_time" = Some (JDate (clock w))
    /\ (submissions (after (route_post body) w) = submissions w
        \/ submissions (after (route_post body) w)
           = submissions w ++ [ <["id" := JNum (next_id w)]> attrs ])
    /\ (forall body' : SubmissionRequestBody,
          lang body' = lang body ->
          submissions (after (route_post body') w)
          = submissions (after (route_post body) w))
    /\ (forall o : obj,
          last (sent (after (route_post body) w)) = Some (202, BObject o) ->
          o !! "callbackurl" = Some (JStr (callbackurl body))).
Proof.
  exists {[ "lang" := JStr (lang body); "start_time" := JDate (clock w) ]}.
  split_and!.
  - apply route_post_db_log.
  - rewrite dom_insert_L, dom_singleton_L. set_solver.
  - apply lookup_insert_eq.
  - by rewrite lookup_insert_ne, lookup_singleton_eq.
  - rewrite route_post_submissions.
    destruct (db_fault w (length (db_log w))); [by left | by right].
  - intros body' Hlang. by rewrite !route_post_submissions, Hlang.
  - intros o. post_paths w body; cbn; rewrite last_snoc; intros [= <-].
    by rewrite !lookup_insert_ne, lookup_singleton_eq.
Qed.

(** ** GET /submissions *)

(** C7: [GET /submissions] makes one [findAll] call and answers with what it
    gives: 200 and the rows the store holds when it succeeds, 501 (not a 2xx)
    and the error object [{code, message, error}] when it fails; the store's
    rows are left as they were. *)
Theorem get_passes_the_store_through (w : World) :
  sent (after route_get w)
  = sent w ++ [ match db_fault w (length (db_log w)) with
                | None => (200, BArray (submissions w))
                | Some e =>
                    (501, BObject {[ "code" := JNum 501;
                                     "message" := JStr "Could not fetch submissions";
                                     "error" := e ]})
                end ]
  /\ is_2xx 200 = true
  /\ is_2xx 501 = false
  /\ db_log (after route_get w) = db_log w ++ [DbFindAll]
  /\ submissions (after route_get w) = submissions w.
Proof.
  unfold after.
  destruct (db_fault w (length (db_log w))) as [e|] eqn:Hdb.
  - rewrite (route_get_failed w e Hdb). by split_and!.
  - rewrite (route_get_listed w Hdb). by split_and!.
Qed.

(** ** The language registry *)

(** C8: when the setup script's chain is fulfilled, the [Langs] table holds
    exactly the five rows given to [bulkCreate], whatever it held before, and
    the known slugs are exactly py2, java8, nodejs6, cpp and c. *)
Theorem setup_seeds_five_languages (w : World) (rows : list obj) :
  outcome setup w = Fulfilled rows ->
  langs (after setup w) = rows
  /\ rows
     = [ {[ "lang_slug" := JStr "py2"; "lang_name" := JStr "Python";
            "lang_version" := JStr "2.7" ]};
         {[ "lang_slug" := JStr "java8"; "lang_name" := JStr "Java";
            "lang_version" := JStr "1.8" ]};
         {[ "lang_slug" := JStr "nodejs6"; "lang_name" := JStr "NodeJS";
            "lang_version" := JStr "6" ]};
         {[ "lang_slug" := JStr "cpp"; "lang_name" := JStr "C++";
            "lang_version" := JStr "11" ]};
         {[ "lang_slug" := JStr "c"; "lang_name" := JStr "C";
            "lang_version" := JStr "6" ]} ]
  /\ known_slugs (after setup w) = {[ "py2"; "java8"; "nodejs6"; "cpp"; "c" ]}.
Proof.
  unfold outcome, after, known_slugs, setup, finally_, try_, catch_, then_.
  unfold db_sync, Langs_sync, Langs_bulkCreate, db_close, db_call, resolve.
  cbn [db_fault db_log log_db set_langs set_db_open langs].
  repeat match goal with
    | |- context [db_fault w ?n] =>
        let e := fresh "e" in
        destruct (db_fault w n) as [e|];
        cbn [fst snd db_fault db_log log_db set_langs set_db_open langs]
    end.
  all: try discriminate.
  all: intros [= <-]; split_and!; try reflexivity.
  all: vm_compute; reflexivity.
Qed.

Lemma setup_seeds_five_languages_witness :
  length (langs (after setup stale_registry)) = 5%nat
  /\ known_slugs (after setup stale_registry)
     = {[ "py2"; "java8"; "nodejs6"; "cpp"; "c" ]}.
Proof.
  destruct (setup_seeds_five_languages stale_registry _ eq_refl)
    as (Hl & _ & Hs).
  split; [by rewrite Hl | exact Hs].
Defined.

(** ** Where the routes fall short of the lifecycle *)

(** C4 on the code: the scenario's submission is accepted and published, and
    its [callbackurl] is only in the response: neither the stored row nor the
    published job has the property. *)
Example post_drops_callbackurl :
  sent (after (route_post scenario) fresh)
  = [(202, BObject {[ "id" := JNum 1; "accepted" := JBool true;
                      "callbackurl" := JStr "http://cb/x" ]})]
  /\ submissions (after (route_post scenario) fresh)
     = [ {[ "id" := JNum 1; "lang" := JStr "cpp";
            "start_time" := JDate 1500000000000 ]} ]
  /\ published (after (route_post scenario) fresh)
     = [ {[ "id" := JNum 1; "source" := JStr "s1";
            "testcases" := JCases [ {| input := "i1"; output := "o1" |};
                                    {| input := "i2"; output := "o2" |} ];
            "getstdout" := JBool true ]} ]
  /\ Forall (fun o : obj => o !! "callbackurl" = None)
       (submissions (after (route_post scenario) fresh)
        ++ published (after (route_post scenario) fresh)).
Proof.
  unfold after.
  rewrite (route_post_queued fresh scenario true eq_refl eq_refl). cbn.
  split_and!; [reflexivity | reflexivity | reflexivity |].
  repeat constructor.
Qed.

(** C5 on the code: a request whose [source] and [callbackurl] are no URLs is
    stored, queued and answered 202 like any other; no client error is
    raised. *)
Example post_accepts_malformed_request :
  sent (after (route_post malformed) fresh)
  = [(202, BObject {[ "id" := JNum 1; "accepted" := JBool true;
                      "callbackurl" := JStr "nowhere" ]})]
  /\ is_4xx 202 = false
  /\ submissions (after (route_post malformed) fresh)
     = [ {[ "id" := JNum 1; "lang" := JStr "cpp";
            "start_time" := JDate 1500000000000 ]} ]
  /\ published (after (route_post malformed) fresh)
     = [ {[ "id" := JNum 1; "source" := JStr "not a url";
            "testcases" := JCases [ {| input := "i1"; output := "o1" |} ];
            "getstdout" := JBool false ]} ].
Proof.
  unfold after.
  rewrite (route_post_queued fresh malformed true eq_refl eq_refl).
  by split_and!.
Qed.

(** * Beyond one request *)

(** ** The environment and the clock stay as they are *)


(** ** What one request adds *)

(** One request adds at most one row and one job, with the same [id], and
    exactly one response; a 202 carries the [id] of the row just added, and
    when it says [accepted: true] the job of that [id] was published. *)
Lemma serve_adds (r : Request) (w : World) :
  exists (rows jobs taken : list obj) (resp : Response),
    submissions (after (serve r) w) = submissions w ++ rows
    /\ offered (after (serve r) w) = offered w ++ jobs
    /\ published (after (serve r) w) = published w ++ taken
    /\ sent (after (serve r) w) = sent w ++ [resp]
    /\ ids_of jobs = ids_of rows
    /\ (forall o : obj,
          resp = (202, BObject o) ->
          prop o "id" ∈ ids_of rows
          /\ (o !! "accepted" = Some (JBool true) ->
              prop o "id" ∈ ids_of taken)).
Proof.
  destruct r as [|body]; simpl.
  - exists [], [], []. unfold after.
    destruct (db_fault w (length (db_log w))) as [e|] eqn:Hdb.
    + rewrite (route_get_failed w e Hdb). eexists. cbn.
      rewrite !app_nil_r. by split_and!.
    + rewrite (route_get_listed w Hdb). eexists. cbn.
      rewrite !app_nil_r. by split_and!.
  - post_paths w body; cbn.
    + exists [], [], []. eexists. rewrite !app_nil_r. by split_and!.
    + destruct b.
      * eexists [_], [_], [_], _.
        split_and!; [reflexivity | reflexivity | reflexivity | reflexivity
                    | unfold ids_of; cbn; by rewrite !prop_insert_eq |].
        intros o [= <-]. rewrite prop_insert_eq. unfold ids_of. cbn.
        rewrite !prop_insert_eq. split; [apply list_elem_of_here|].
        intros _. apply list_elem_of_here.
      * eexists [_], [_], [], _. rewrite app_nil_r.
        split_and!; [reflexivity | reflexivity | reflexivity | reflexivity
                    | unfold ids_of; cbn; by rewrite !prop_insert_eq |].
        intros o [= <-]. rewrite prop_insert_eq. unfold ids_of. cbn.
        rewrite !prop_insert_eq. split; [apply list_elem_of_here|].
        rewrite lookup_insert_ne, lookup_insert_eq by done. intros [= ].
    + eexists [_], [_], [], _. rewrite app_nil_r.
      split_and!; [reflexivity | reflexivity | reflexivity | reflexivity
                  | unfold ids_of; cbn; by rewrite !prop_insert_eq |].
      intros o [= ].
Qed.

Lemma ids_of_app (xs ys : list obj) : ids_of (xs ++ ys) = ids_of xs ++ ids_of ys.
Proof. unfold ids_of. apply fmap_app. Qed.

(** The same for a run of requests. *)
Lemma serve_all_adds (rs : list Request) (w : World) :
  exists (rows jobs taken : list obj) (resps : list Response),
    submissions (serve_all rs w) = submissions w ++ rows
    /\ offered (serve_all rs w) = offered w ++ jobs
    /\ published (serve_all rs w) = published w ++ taken
    /\ sent (serve_all rs w) = sent w ++ resps
    /\ length resps = length rs
    /\ ids_of jobs = ids_of rows
    /\ (forall o : obj,
          (202, BObject o) ∈ resps ->
          prop o "id" ∈ ids_of rows
          /\ (o !! "accepted" = Some (JBool true) ->
              prop o "id" ∈ ids_of taken)).
Proof.
  revert w. induction rs as [|r rs IH]; intros w; simpl.
  - exists [], [], [], []. rewrite !app_nil_r. split_and!; try done.
    intros o Hin. by apply elem_of_nil in Hin.
  - destruct (serve_adds r w)
      as (rows1 & jobs1 & taken1 & resp & Hs1 & Ho1 & Hp1 & Hr1 & Hid1 & H1).
    destruct (IH (after (serve r) w))
      as (rows2 & jobs2 & taken2 & resps & Hs2 & Ho2 & Hp2 & Hr2 & Hlen & Hid2 & H2).
    exists (rows1 ++ rows2), (jobs1 ++ jobs2), (taken1 ++ taken2), (resp :: resps).
    split_and!.
    + by rewrite Hs2, Hs1, app_assoc.
    + by rewrite Ho2, Ho1, app_assoc.
    + by rewrite Hp2, Hp1, app_assoc.
    + by rewrite Hr2, Hr1, <- app_assoc.
    + simpl. by rewrite Hlen.
    + by rewrite !ids_of_app, Hid1, Hid2.
    + intros o Hin. rewrite !ids_of_app. apply elem_of_cons in Hin as [Heq|Hin].
      * destruct (H1 o (eq_sym Heq)) as [Hrow Htaken].
        split; [apply elem_of_app; by left|].
        intros Hacc. apply elem_of_app. left. by apply Htaken.
      * destruct (H2 o Hin) as [Hrow Htaken].
        split; [apply elem_of_app; by right|].
        intros Hacc. apply elem_of_app. right. by apply Htaken.
Qed.



(** ** Requests in flight *)

(** [route.post] and [route.get] are their two halves run back to back. *)
Lemma route_post_in_two_steps (body : SubmissionRequestBody) (w : World) :
  route_post body w
  = post_settle body (outcome (post_create body) w)
      (after (post_create body) w).
Proof.
  cbv [route_post post_settle post_create outcome after then_ catch_ settled
       new_Date].
  by destruct (Submissions_create _ w) as [[submission|e] w1].
Qed.

Lemma route_get_in_two_steps (w : World) :
  route_get w
  = get_settle (outcome Submissions_findAll w) (after Submissions_findAll w).
Proof.
  cbv [route_get get_settle outcome after then_ catch_ settled].
  by destruct (Submissions_findAll w) as [[rows|e] w1].
Qed.

(** Serving the requests one by one is one of the runs. *)
Lemma run_one_by_one (rs : list Request) (w : World) :
  run (one_by_one rs) (idle w) = idle (serve_all rs w).
Proof.
  revert w. induction rs as [|r rs IH]; intros w; [done|].
  unfold one_by_one. rewrite bind_cons. cbn [app run serve_all].
  fold (one_by_one rs). rewrite <- IH. f_equal.
  destruct r as [|body]; cbn [step idle world pending app lookup serve].
  - cbn. unfold idle, after. by rewrite route_get_in_two_steps.
  - cbn. unfold idle, after. by rewrite route_post_in_two_steps.
Qed.

Lemma waiting_delete (ps : list Pending) (k : nat) (p : Pending) :
  ps !! k = Some p ->
  waiting ps ≡ₚ waiting [p] ++ waiting (delete k ps)
  /\ length ps = S (length (delete k ps)).
Proof.
  intros Hk. pose proof (delete_Permutation ps k p Hk) as Hperm. split.
  - unfold waiting. rewrite <- omap_app. by rewrite Hperm at 1.
  - by rewrite Hperm at 1.
Qed.

(** What one event adds.  The rows whose job has not been offered are those
    of the requests in flight. *)
Lemma step_adds (ev : Event) (s : Server) :
  exists (rows jobs : list obj) (resps : list Response),
    submissions (world (step ev s)) = submissions (world s) ++ rows
    /\ offered (world (step ev s)) = offered (world s) ++ jobs
    /\ sent (world (step ev s)) = sent (world s) ++ resps
    /\ ids_of jobs ++ waiting (pending (step ev s))
       ≡ₚ waiting (pending s) ++ ids_of rows
    /\ (length resps + length (pending (step ev s))
        = length (pending s) + arrivals [ev])%nat.
Proof.
  destruct s as [w ps]. destruct ev as [[|body]|k]; cbn [step world pending].
  - exists [], [], [].
    unfold after, outcome, Submissions_findAll, db_call.
    destruct (db_fault w (length (db_log w))) as [e|]; cbn.
    all: unfold waiting; rewrite !app_nil_r, omap_app, length_app; cbn.
    all: rewrite app_nil_r; split_and!; try done; lia.
  - unfold after, outcome, post_create, then_, new_Date, Submissions_create,
      db_call.
    destruct (db_fault w (length (db_log w))) as [e|]; cbn.
    + exists [], [], [].
      unfold waiting; rewrite !app_nil_r, omap_app, length_app; cbn.
      rewrite app_nil_r; split_and!; try done; lia.
    + eexists [_], [], []. rewrite !app_nil_r.
      unfold waiting; rewrite omap_app, length_app; cbn.
      split_and!; try done; lia.
  - destruct (ps !! k) as [p|] eqn:Hk; cbn [world pending].
    + destruct (waiting_delete ps k p Hk) as [Hw Hlen].
      destruct p as [[rows|e]|body [submission|e]];
        cbn [settle]; unfold after, get_settle, post_settle.
      * exists [], [], [(200, BArray rows)]. cbn in *.
        rewrite !app_nil_r. split_and!; try done; lia.
      * eexists [], [], [_]. cbn in *.
        rewrite !app_nil_r. split_and!; try done; lia.
      * unfold catch_, then_, settled, queueJob, res_status_json.
        destruct (broker w (length (offered w))) as [b|e]; cbn in *.
        all: eexists [], [_], [_]; rewrite !app_nil_r.
        all: unfold ids_of; cbn; rewrite prop_insert_eq.
        all: split_and!; try done; lia.
      * eexists [], [], [_]. cbn in *.
        rewrite !app_nil_r. split_and!; try done; lia.
    + exists [], [], []. cbn. rewrite !app_nil_r. split_and!; try done; lia.
Qed.

(** The same for a run of events. *)
Lemma run_adds (evs : list Event) (s : Server) :
  exists (rows jobs : list obj) (resps : list Response),
    submissions (world (run evs s)) = submissions (world s) ++ rows
    /\ offered (world (run evs s)) = offered (world s) ++ jobs
    /\ sent (world (run evs s)) = sent (world s) ++ resps
    /\ ids_of jobs ++ waiting (pending (run evs s))
       ≡ₚ waiting (pending s) ++ ids_of rows
    /\ (length resps + length (pending (run evs s))
        = length (pending s) + arrivals evs)%nat.
Proof.
  revert s. induction evs as [|ev evs IH]; intros s; cbn [run].
  - exists [], [], []. cbn. rewrite !app_nil_r. by split_and!.
  - destruct (step_adds ev s)
      as (rows1 & jobs1 & resps1 & Hs1 & Ho1 & Hr1 & Hid1 & Hn1).
    destruct (IH (step ev s))
      as (rows2 & jobs2 & resps2 & Hs2 & Ho2 & Hr2 & Hid2 & Hn2).
    exists (rows1 ++ rows2), (jobs1 ++ jobs2), (resps1 ++ resps2).
    split_and!.
    + by rewrite Hs2, Hs1, app_assoc.
    + by rewrite Ho2, Ho1, app_assoc.
    + by rewrite Hr2, Hr1, app_assoc.
    + rewrite !ids_of_app, <- app_assoc, Hid2, !app_assoc, Hid1. done.
    + rewrite length_app. cbn [arrivals] in Hn1.
      destruct ev; cbn [arrivals]; lia.
Qed.

(** ** Runs of requests *)

(** X1: in any run, with requests in flight crossing as they may, every
    request whose store call has settled, fulfilled or rejected, has been
    answered exactly once, and a request whose call has not settled has not
    been answered: the responses added and the requests still in flight add
    up to the requests that arrived. *)
Theorem settled_requests_are_answered_once (evs : list Event) (w : World) :
  exists resps : list Response,
    sent (world (run evs (idle w))) = sent w ++ resps
    /\ (length resps + length (pending (run evs (idle w)))
        = arrivals evs)%nat.
Proof.
  destruct (run_adds evs (idle w)) as (rows & jobs & resps & _ & _ & Hr & _ & Hn).
  exists resps. split; [exact Hr | exact Hn].
Qed.

(** X2: in any run, with requests in flight crossing as they may, the [id]s
    of the jobs handed to [queueJob], together with the [id]s of the rows
    whose request is still in flight, are the [id]s of the rows added, up to
    order; once no request is in flight the jobs and the rows added have the
    same [id]s up to order. *)
Theorem jobs_and_rows_go_together (evs : list Event) (w : World) :
  exists rows jobs : list obj,
    submissions (world (run evs (idle w))) = submissions w ++ rows
    /\ offered (world (run evs (idle w))) = offered w ++ jobs
    /\ ids_of jobs ++ waiting (pending (run evs (idle w))) ≡ₚ ids_of rows
    /\ (pending (run evs (idle w)) = [] -> ids_of jobs ≡ₚ ids_of rows).
Proof.
  destruct (run_adds evs (idle w)) as (rows & jobs & resps & Hs & Ho & _ & Hid & _).
  exists rows, jobs. split_and!; [exact Hs | exact Ho | exact Hid |].
  intros Hidle. rewrite Hidle in Hid. cbn in Hid. by rewrite app_nil_r in Hid.
Qed.

(** Two requests that cross: the rows are 1, 2 and the jobs 2, 1. *)
Lemma jobs_and_rows_go_together_witness :
  ids_of (submissions (world (run crossing (idle fresh)))) = [JNum 1; JNum 2]
  /\ ids_of (offered (world (run crossing (idle fresh)))) = [JNum 2; JNum 1]
  /\ exists rows jobs : list obj,
      submissions (world (run crossing (idle fresh))) = submissions fresh ++ rows
      /\ offered (world (run crossing (idle fresh))) = offered fresh ++ jobs
      /\ ids_of jobs ≡ₚ ids_of rows.
Proof.
  split; [reflexivity|]. split; [reflexivity|].
  destruct (jobs_and_rows_go_together crossing fresh)
    as (rows & jobs & Hs & Ho & _ & Hidle).
  exists rows, jobs. split_and!; [exact Hs | exact Ho | exact (Hidle eq_refl)].
Defined.

(** X3: the [id] of every 202 response of a run is the [id] of a row the run
    added to the store. *)
Theorem accepted_id_is_a_stored_row (rs : list Request) (w : World) :
  exists (rows : list obj) (resps : list Response),
    submissions (serve_all rs w) = submissions w ++ rows
    /\ sent (serve_all rs w) = sent w ++ resps
    /\ forall o : obj,
        (202, BObject o) ∈ resps ->
        exists row, row ∈ rows /\ prop row "id" = prop o "id".
Proof.
  destruct (serve_all_adds rs w)
    as (rows & jobs & taken & resps & Hs & _ & _ & Hr & _ & _ & H).
  exists rows, resps. split_and!; [done | done |].
  intros o Hin. destruct (H o Hin) as [Hid _].
  apply list_elem_of_fmap in Hid as (row & Heq & Hrow). eauto.
Qed.

(** X4: a 202 response of a run that says [accepted: true] has its job among
    those the broker took during the run, under the same [id]. *)
Theorem accepted_true_is_published (rs : list Request) (w : World) :
  exists (taken : list obj) (resps : list Response),
    published (serve_all rs w) = published w ++ taken
    /\ sent (serve_all rs w) = sent w ++ resps
    /\ forall o : obj,
        (202, BObject o) ∈ resps ->
        o !! "accepted" = Some (JBool true) ->
        exists job, job ∈ taken /\ prop job "id" = prop o "id".
Proof.
  destruct (serve_all_adds rs w)
    as (rows & jobs & taken & resps & _ & _ & Hp & Hr & _ & _ & H).
  exists taken, resps. split_and!; [done | done |].
  intros o Hin Hacc. destruct (H o Hin) as [_ Hid].
  apply list_elem_of_fmap in Hid as (job & Heq & Hjob); eauto.
Qed.



(** * The setup script, path by path *)

(** [try { db.close() } catch (e) { }] logs the call, never rejects and
    leaves the tables alone. *)
Lemma try_db_close_after (w : World) :
  outcome (try_ db_close) w = Fulfilled tt
  /\ db_log (after (try_ db_close) w) = db_log w ++ [DbClose]
  /\ langs (after (try_ db_close) w) = langs w
  /\ submissions (after (try_ db_close) w) = submissions w
  /\ db_fault (after (try_ db_close) w) = db_fault w.
Proof.
  unfold outcome, after, try_, catch_, db_close, db_call, resolve.
  by destruct (db_fault w (length (db_log w))).
Qed.

Lemma finally_try_db_close {A} (p : Promise A) (w : World) :
  finally_ p (try_ db_close) w
  = (outcome p w, after (try_ db_close) (after p w)).
Proof.
  unfold finally_, outcome, after. destruct (p w) as [r w1]. cbn [fst snd].
  pose proof (try_db_close_after w1) as [Hout _]. unfold outcome in Hout.
  destruct (try_ db_close w1) as [[[]|e] w2]; [done | discriminate].
Qed.

Section SetupPaths.
Variable w : World.

Local Abbreviation seeds :=
  ([ {[ "lang_slug" := JStr "py2"; "lang_name" := JStr "Python";
        "lang_version" := JStr "2.7" ]};
     {[ "lang_slug" := JStr "java8"; "lang_name" := JStr "Java";
        "lang_version" := JStr "1.8" ]};
     {[ "lang_slug" := JStr "nodejs6"; "lang_name" := JStr "NodeJS";
        "lang_version" := JStr "6" ]};
     {[ "lang_slug" := JStr "cpp"; "lang_name" := JStr "C++";
        "lang_version" := JStr "11" ]};
     {[ "lang_slug" := JStr "c"; "lang_name" := JStr "C";
        "lang_version" := JStr "6" ]} ] : list obj).

(** [db.sync()] is rejected: neither [Langs.sync] nor [bulkCreate] is
    called. *)
Lemma setup_sync_rejected e :
  db_fault w (length (db_log w)) = Some e ->
  setup w = (Rejected e, after (try_ db_close) (log_db DbSync w)).
Proof.
  intros H0. unfold setup. rewrite finally_try_db_close.
  unfold outcome, after. erewrite then_rejected; [reflexivity|].
  unfold db_sync. by apply db_call_fault.
Qed.

(** [Langs.sync({force: true})] is rejected: [bulkCreate] is not called. *)
Lemma setup_langs_sync_rejected e :
  db_fault w (length (db_log w)) = None ->
  db_fault w (S (length (db_log w))) = Some e ->
  setup w
  = (Rejected e,
     after (try_ db_close) (log_db (DbLangsSync true) (log_db DbSync w))).
Proof.
  intros H0 H1. unfold setup. rewrite finally_try_db_close.
  unfold outcome, after.
  erewrite then_fulfilled; [|unfold db_sync; by rewrite db_call_ok].
  cbn [fst snd].
  erewrite then_rejected; [reflexivity|].
  unfold Langs_sync. apply db_call_fault. cbn [db_fault db_log log_db].
  by rewrite length_app, Nat.add_1_r.
Qed.

(** [bulkCreate] is rejected, after the forced sync emptied the table. *)
Lemma setup_bulkCreate_rejected e :
  db_fault w (length (db_log w)) = None ->
  db_fault w (S (length (db_log w))) = None ->
  db_fault w (S (S (length (db_log w)))) = Some e ->
  setup w
  = (Rejected e,
     after (try_ db_close)
       (log_db (DbBulkCreate seeds)
          (set_langs [] (log_db (DbLangsSync true) (log_db DbSync w))))).
Proof.
  intros H0 H1 H2. unfold setup. rewrite finally_try_db_close.
  unfold outcome, after.
  erewrite then_fulfilled; [|unfold db_sync; by rewrite db_call_ok].
  cbn [fst snd].
  erewrite then_fulfilled;
    [|unfold Langs_sync; rewrite db_call_ok; [reflexivity|];
      cbn [db_fault db_log log_db]; by rewrite length_app, Nat.add_1_r].
  cbn [fst snd].
  unfold Langs_bulkCreate. rewrite (db_call_fault _ _ _ e); [reflexivity|].
  cbn [db_fault db_log log_db set_langs].
  by rewrite !length_app, !Nat.add_1_r.
Qed.

(** The three calls succeed. *)
Lemma setup_seeded :
  db_fault w (length (db_log w)) = None ->
  db_fault w (S (length (db_log w))) = None ->
  db_fault w (S (S (length (db_log w)))) = None ->
  setup w
  = (Fulfilled seeds,
     after (try_ db_close)
       (set_langs seeds
          (log_db (DbBulkCreate seeds)
             (set_langs [] (log_db (DbLangsSync true) (log_db DbSync w)))))).
Proof.
  intros H0 H1 H2. unfold setup. rewrite finally_try_db_close.
  unfold outcome, after.
  erewrite then_fulfilled; [|unfold db_sync; by rewrite db_call_ok].
  cbn [fst snd].
  erewrite then_fulfilled;
    [|unfold Langs_sync; rewrite db_call_ok; [reflexivity|];
      cbn [db_fault db_log log_db]; by rewrite length_app, Nat.add_1_r].
  cbn [fst snd].
  unfold Langs_bulkCreate. rewrite db_call_ok; [reflexivity|].
  cbn [db_fault db_log log_db set_langs].
  by rewrite !length_app, !Nat.add_1_r.
Qed.
End SetupPaths.

(** The four paths of the setup script. *)
Ltac setup_paths w :=
  let e := fresh "e" in
  let H0 := fresh "H0" in
  let H1 := fresh "H1" in
  let H2 := fresh "H2" in
  unfold outcome, after;
  destruct (db_fault w (length (db_log w))) as [e|] eqn:H0;
  [ rewrite (setup_sync_rejected w e H0)
  | destruct (db_fault w (S (length (db_log w)))) as [e|] eqn:H1;
    [ rewrite (setup_langs_sync_rejected w e H0 H1)
    | destruct (db_fault w (S (S (length (db_log w))))) as [e|] eqn:H2;
      [ rewrite (setup_bulkCreate_rejected w e H0 H1 H2)
      | rewrite (setup_seeded w H0 H1 H2) ] ] ];
  cbn [fst snd].

Lemma setup_fulfilled_seeds (w : World) (rows : list obj) :
  outcome setup w = Fulfilled rows ->
  langs (after setup w) = rows
  /\ db_fault w (length (db_log w)) = None
  /\ db_fault w (S (length (db_log w))) = None
  /\ db_fault w (S (S (length (db_log w)))) = None.
Proof.
  setup_paths w; try discriminate.
  intros [= <-]. split_and!; try done.
  match goal with
  | |- context [after (try_ db_close) ?w1] =>
      by destruct (try_db_close_after w1) as (_ & _ & -> & _)
  end.
Qed.

(** ** The setup script *)

(** X6: the setup script is rejected with the reason of the first of
    [db.sync()], [Langs.sync({force: true})] and [bulkCreate] that fails and
    skips the calls after it; [db.close()] is the last call made on every
    path, and its own failure changes nothing of the outcome. *)
Theorem setup_fails_with_the_first_failure (w : World) :
  outcome setup w
  = match db_fault w (length (db_log w)) with
    | Some e => Rejected e
    | None =>
        match db_fault w (S (length (db_log w))) with
        | Some e => Rejected e
        | None =>
            match db_fault w (S (S (length (db_log w)))) with
            | Some e => Rejected e
            | None => Fulfilled (langs (after setup w))
            end
        end
    end
  /\ last (db_log (after setup w)) = Some DbClose
  /\ (length (db_log (after setup w))
      = length (db_log w)
        + match db_fault w (length (db_log w)) with
          | Some _ => 2
          | None =>
              match db_fault w (S (length (db_log w))) with
              | Some _ => 3
              | None => 4
              end
          end)%nat.
Proof.
  setup_paths w.
  all: match goal with
       | |- context [after (try_ db_close) ?w1] =>
           destruct (try_db_close_after w1) as (_ & Hlog & Hlangs & _)
       end.
  all: rewrite Hlog, last_snoc, ?Hlangs.
  all: split_and!; [reflexivity | reflexivity |].
  all: cbn [db_log log_db set_langs]; rewrite !length_app; simpl; lia.
Qed.

(** X7: a rejected setup leaves the [Langs] table as it was when
    [db.sync()] or the forced [Langs.sync] failed, and empty when
    [bulkCreate] failed: the forced sync has dropped the old rows by then. *)
Theorem rejected_setup_leaves_old_or_no_languages
  (w : World) (e : jsval) :
  outcome setup w = Rejected e ->
  langs (after setup w)
  = match db_fault w (length (db_log w)),
          db_fault w (S (length (db_log w))) with
    | None, None => []
    | _, _ => langs w
    end.
Proof.
  setup_paths w; try discriminate.
  all: intros _.
  all: match goal with
       | |- context [after (try_ db_close) ?w1] =>
           destruct (try_db_close_after w1) as (_ & _ & -> & _)
       end.
  all: reflexivity.
Qed.

Lemma rejected_setup_leaves_old_or_no_languages_witness :
  outcome setup seeding_fails = Rejected (JError "SQLITE_BUSY")
  /\ length (langs seeding_fails) = 1%nat
  /\ langs (after setup seeding_fails) = [].
Proof.
  split; [reflexivity|]. split; [reflexivity|].
  exact (rejected_setup_leaves_old_or_no_languages seeding_fails
           (JError "SQLITE_BUSY") eq_refl).
Defined.

(** X8: the setup script can be run again: a second fulfilled run leaves
    the [Langs] table exactly as the first left it, no row twice. *)
Theorem setup_twice_is_setup_once (w : World) (rows1 rows2 : list obj) :
  outcome setup w = Fulfilled rows1 ->
  outcome setup (after setup w) = Fulfilled rows2 ->
  langs (after setup (after setup w)) = langs (after setup w)
  /\ rows2 = rows1.
Proof.
  intros Hfirst Hsecond.
  destruct (setup_fulfilled_seeds _ _ Hfirst) as (Hl1 & H0 & H1 & H2).
  destruct (setup_fulfilled_seeds _ _ Hsecond) as (Hl2 & H0' & H1' & H2').
  rewrite Hl1, Hl2.
  unfold outcome in Hfirst, Hsecond.
  rewrite (setup_seeded w H0 H1 H2) in Hfirst.
  rewrite (setup_seeded _ H0' H1' H2') in Hsecond.
  cbn [fst] in Hfirst, Hsecond.
  split; congruence.
Qed.

Lemma setup_twice_is_setup_once_witness :
  length (langs (after setup (after setup stale_registry))) = 5%nat
  /\ langs (after setup (after setup stale_registry))
     = langs (after setup stale_registry).
Proof.
  destruct (setup_twice_is_setup_once stale_registry _ _ eq_refl eq_refl)
    as [H _].
  split; [reflexivity | exact H].
Defined.

(** X9: on every path the setup script touches only the [Langs] table and
    the connection: [db.sync()] is not forced, so the rows of [Submissions]
    stay, and nothing is queued or answered. *)
Theorem setup_keeps_submissions (w : World) :
  submissions (after setup w) = submissions w
  /\ next_id (after setup w) = next_id w
  /\ offered (after setup w) = offered w
  /\ sent (after setup w) = sent w.
Proof.
  setup_paths w.
  all: unfold after, try_, catch_, db_close, db_call, resolve.
  all: cbn [db_fault db_log log_db set_langs].
  all: match goal with
       | |- context [db_fault ?v ?n] => by destruct (db_fault v n)
       end.
Qed.

(** * What a job holds and what a 501 tells *)

Lemma serve_offers_four_properties (r : Request) (w : World) :
  exists jobs : list obj,
    offered (after (serve r) w) = offered w ++ jobs
    /\ Forall (fun job : obj =>
                 dom job = {[ "id"; "source"; "testcases"; "getstdout" ]}) jobs.
Proof.
  destruct r as [|body]; simpl.
  - exists []. unfold after.
    destruct (db_fault w (length (db_log w))) as [e|] eqn:Hdb.
    + rewrite (route_get_failed w e Hdb). cbn. by rewrite app_nil_r.
    + rewrite (route_get_listed w Hdb). cbn. by rewrite app_nil_r.
  - post_paths w body; cbn.
    + exists []. by rewrite app_nil_r.
    + eexists [_]. split; [reflexivity|]. apply Forall_singleton.
      rewrite !dom_insert_L, dom_singleton_L. set_solver.
    + eexists [_]. split; [reflexivity|]. apply Forall_singleton.
      rewrite !dom_insert_L, dom_singleton_L. set_solver.
Qed.

(** X10: every job handed to [queueJob] during a run of requests has the
    properties [id], [source], [testcases] and [getstdout] and no other:
    neither the request's [lang] nor its [callbackurl] is in a job. *)
Theorem jobs_hold_four_properties (rs : list Request) (w : World) :
  exists jobs : list obj,
    offered (serve_all rs w) = offered w ++ jobs
    /\ Forall (fun job : obj =>
                 dom job = {[ "id"; "source"; "testcases"; "getstdout" ]}
                 /\ job !! "lang" = None
                 /\ job !! "callbackurl" = None) jobs.
Proof.
  revert w. induction rs as [|r rs IH]; intros w; simpl.
  - exists []. by rewrite app_nil_r.
  - destruct (serve_offers_four_properties r w) as (jobs1 & Ho1 & Hk1).
    destruct (IH (after (serve r) w)) as (jobs2 & Ho2 & Hk2).
    exists (jobs1 ++ jobs2). split; [by rewrite Ho2, Ho1, app_assoc|].
    apply Forall_app. split; [|exact Hk2].
    eapply Forall_impl; [exact Hk1|].
    intros job Hdom. split; [exact Hdom|].
    split; apply not_elem_of_dom; rewrite Hdom;
      rewrite !elem_of_union, !elem_of_singleton; intros [[[?|?]|?]|?]; discriminate.
Qed.

(** X11: the 501 of [POST /submissions] does not tell whether a row was
    stored: when the create succeeds and [queueJob] throws [e], the response
    is the one the same request gets from a store that rejects the create
    with [e], yet in the first case the store has one row more and in the
    second it has not. *)
Theorem post_501_hides_whether_stored
  (w : World) (body : SubmissionRequestBody) (e : jsval) :
  db_fault w (length (db_log w)) = None ->
  broker w (length (offered w)) = Throws e ->
  sent (after (route_post body) w)
  = sent (after (route_post body) (with_db_fault (fun _ => Some e) w))
  /\ length (submissions (after (route_post body) w))
     = S (length (submissions w))
  /\ submissions (after (route_post body) (with_db_fault (fun _ => Some e) w))
     = submissions w.
Proof.
  intros Hdb Hq. unfold after.
  rewrite (route_post_thrown w body e Hdb Hq).
  rewrite (route_post_rejected (with_db_fault (fun _ => Some e) w) body e eq_refl).
  cbn. split_and!; [reflexivity | | reflexivity].
  rewrite length_app. simpl. lia.
Qed.

Lemma post_501_hides_whether_stored_witness :
  sent (after (route_post scenario) queue_broken)
  = sent (after (route_post scenario)
            (with_db_fault (fun _ => Some (JError "Channel closed"))
               queue_broken))
  /\ length (submissions (after (route_post scenario) queue_broken)) = 1%nat
  /\ submissions (after (route_post scenario)
                    (with_db_fault (fun _ => Some (JError "Channel closed"))
                       queue_broken)) = [].
Proof.
  exact (post_501_hides_whether_stored queue_broken scenario
           (JError "Channel closed") eq_refl eq_refl).
Defined.
